(** * Project Euler 57, square root convergents: [main.py]

    A shallow embedding of [main] (main.py, lines 25-248) and of the exact
    convergent recurrence its docstring and comments refer to, with the
    properties of the two.

    Python [int] is [Z].  Python [float] is IEEE 754 binary64, taken from the
    Standard Library's [SpecFloat] at precision 53 and maximal exponent 1024,
    so that every float operation of the program is an evaluable function on
    the bits of its arguments.  Expressions are computations in an error
    monad, statements also thread the lines written to standard output. *)

From Stdlib Require Import ZArith List Lia Bool String DecimalString.
From Stdlib Require Import Floats.SpecFloat.
Import ListNotations.

Local Open Scope Z_scope.

(** ** Binary64 *)

Definition float : Type := spec_float.

Module F64.

Definition prec : Z := 53.
Definition emax : Z := 1024.

Definition add : float -> float -> float := SFadd prec emax.
Definition sub : float -> float -> float := SFsub prec emax.
Definition mul : float -> float -> float := SFmul prec emax.
Definition div : float -> float -> float := SFdiv prec emax.
Definition sqrt : float -> float := SFsqrt prec emax.

(** The float nearest to [m * 2^e], ties to even. *)
Definition round (m e : Z) : float := binary_normalize prec emax m e false.

Definition is_zero (x : float) : bool :=
  match x with S754_zero _ => true | _ => false end.

(** The integer [k] such that a finite float is [k * 2^e]. *)
Definition signed (s : bool) (m : positive) : Z :=
  if s then Z.neg m else Z.pos m.

(** Largest integer below, and smallest integer above, a finite float.
    [Z.shiftr] rounds towards minus infinity. *)
Definition floor_finite (s : bool) (m : positive) (e : Z) : Z :=
  if 0 <=? e then Z.shiftl (signed s m) e else Z.shiftr (signed s m) (- e).

Definition ceil_finite (s : bool) (m : positive) (e : Z) : Z :=
  - floor_finite (negb s) m e.

End F64.

(** ** Exceptions *)

Inductive exn : Type :=
| AssertionError
| OverflowError
| ValueError
| ZeroDivisionError.

Inductive result (A : Type) : Type :=
| Ok (a : A)
| Raise (e : exn).

Arguments Ok {A} a.
Arguments Raise {A} e.

Definition bind {A B} (m : result A) (k : A -> result B) : result B :=
  match m with
  | Ok a => k a
  | Raise e => Raise e
  end.

Declare Scope py_scope.
Delimit Scope py_scope with py.
Notation "x <- m ;; k" := (bind m (fun x => k))
  (at level 61, m at next level, right associativity) : py_scope.
Local Open Scope py_scope.

(** ** The numeric tower: what Python does between [int] and [float] *)

(** [int] to [float], as in [n * x] or [c - x] with an [int] on one side:
    correctly rounded, [OverflowError] when the integer is beyond the
    floats. *)
Definition float_of_int (z : Z) : result float :=
  match F64.round z 0 with
  | S754_infinity _ => Raise OverflowError
  | x => Ok x
  end.

(** [x / y] on floats. *)
Definition truediv (x y : float) : result float :=
  if F64.is_zero y then Raise ZeroDivisionError else Ok (F64.div x y).

Definition int_add_float (z : Z) (y : float) : result float :=
  x <- float_of_int z ;; Ok (F64.add x y).

Definition int_sub_float (z : Z) (y : float) : result float :=
  x <- float_of_int z ;; Ok (F64.sub x y).

Definition int_mul_float (z : Z) (y : float) : result float :=
  x <- float_of_int z ;; Ok (F64.mul x y).

Definition float_div_int (x : float) (z : Z) : result float :=
  y <- float_of_int z ;; truediv x y.

(** ** The [math] module *)

Module math.

(** Fixed-point reals: the integer [a] stands for [a / 2^bits]. *)
Section FixedPoint.
Variable bits : Z.

Definition fx_mul (a b : Z) : Z := Z.shiftr (a * b) bits.

(** [sum_k t^(2k+1) / (2k+1)] over the first [fuel] terms, with
    [pw = t^(2k+1)] and [j = 2k+1]; stops when the terms vanish. *)
Fixpoint atanh_series (fuel : nat) (t2 pw j acc : Z) : Z :=
  match fuel with
  | O => acc
  | S fuel' =>
      if pw =? 0 then acc
      else atanh_series fuel' t2 (fx_mul pw t2) (j + 2) (acc + pw / j)
  end.

(** [atanh (p / q)] for [0 <= 3 p <= q]: a term brings at least 3 bits. *)
Definition fx_atanh (p q : Z) : Z :=
  let t := Z.shiftl p bits / q in
  atanh_series (Z.to_nat bits) (fx_mul t t) t 1 0.

(** [ln 2 = 2 atanh (1/3)] and [ln 10 = 3 ln 2 + 2 atanh (1/9)]. *)
Definition fx_ln2 : Z := 2 * fx_atanh 1 3.
Definition fx_ln10 : Z := 3 * fx_ln2 + 2 * fx_atanh 1 9.

(** [ln (m * 2^e)]: with [d] the bit length of [m], [m = y * 2^(d-1)]
    for [1 <= y < 2], and [ln y = 2 atanh ((y - 1) / (y + 1))]. *)
Definition fx_ln (m : positive) (e : Z) : Z :=
  let d := Z.pos (digits2_pos m) in
  let h := Z.shiftl 1 (d - 1) in
  2 * fx_atanh (Z.pos m - h) (Z.pos m + h) + (e + d - 1) * fx_ln2.

Definition fx_log10 (m : positive) (e : Z) : Z :=
  Z.shiftl (fx_ln m e) bits / fx_ln10.

(** The float nearest to the logarithm computed with [bits] bits. *)
Definition log10_finite (m : positive) (e : Z) : float :=
  F64.round (fx_log10 m e) (- bits).

End FixedPoint.

(** Working precision of [log10]: 43 bits beyond the 53 of a float. *)
Definition log10_bits : Z := 96.

(** [math.sqrt] on a float: the IEEE square root, [ValueError] below
    zero. *)
Definition sqrt_float (x : float) : result float :=
  match x with
  | S754_finite true _ _ | S754_infinity true => Raise ValueError
  | _ => Ok (F64.sqrt x)
  end.

(** [math.log10] on a float.  The C library computes it; it is taken to be
    the correctly rounded decimal logarithm, [ValueError] at zero and
    below. *)
Definition log10 (x : float) : result float :=
  match x with
  | S754_nan => Ok S754_nan
  | S754_infinity false => Ok x
  | S754_finite false m e => Ok (log10_finite log10_bits m e)
  | S754_zero _ | S754_infinity true | S754_finite true _ _ =>
      Raise ValueError
  end.

(** On an [int] argument both convert it first. *)
Definition sqrt (z : Z) : result float :=
  x <- float_of_int z ;; sqrt_float x.

Definition log10_int (z : Z) : result float :=
  if z <=? 0 then Raise ValueError
  else x <- float_of_int z ;; log10 x.

(** [math.floor] and [math.ceil] give an [int]. *)
Definition floor (x : float) : result Z :=
  match x with
  | S754_zero _ => Ok 0
  | S754_finite s m e => Ok (F64.floor_finite s m e)
  | S754_infinity _ => Raise OverflowError
  | S754_nan => Raise ValueError
  end.

Definition ceil (x : float) : result Z :=
  match x with
  | S754_zero _ => Ok 0
  | S754_finite s m e => Ok (F64.ceil_finite s m e)
  | S754_infinity _ => Raise OverflowError
  | S754_nan => Raise ValueError
  end.

End math.

(** ** Statements: exceptions and standard output *)

Definition stdout : Type := list string.

(** A statement reads the lines printed so far and gives them back with
    those it printed itself, also when it raises. *)
Definition M (A : Type) : Type := stdout -> stdout * result A.

Definition lift {A} (r : result A) : M A := fun out => (out, r).

Definition bindM {A B} (m : M A) (k : A -> M B) : M B :=
  fun out =>
    match m out with
    | (out', Ok a) => k a out'
    | (out', Raise e) => (out', Raise e)
    end.

Definition print (line : string) : M unit :=
  fun out => (out ++ [line], Ok tt).

Notation "x <~ m ;; k" := (bindM m (fun x => k))
  (at level 61, m at next level, right associativity) : py_scope.
Notation "m ;;; k" := (bindM m (fun _ => k))
  (at level 61, right associativity) : py_scope.

(** ** The program *)

(** What [main] can be called with: Python checks no annotation. *)
Inductive value : Type :=
| VInt (n : Z)
| VBool (b : bool)
| VFloat (x : float)
| VStr (s : string)
| VNone.

Definition assert_ (cond : bool) : M unit :=
  lift (if cond then Ok tt else Raise AssertionError).

(** [range(lo, hi)] *)
Definition range (lo hi : Z) : list Z :=
  map (fun k => lo + Z.of_nat k) (seq 0 (Z.to_nat (hi - lo))).

(** [for c in cs: count = body(c, count)] *)
Fixpoint for_each (cs : list Z) (body : Z -> Z -> result Z) (count : Z)
  : result Z :=
  match cs with
  | [] => Ok count
  | c :: cs' => count' <- body c count ;; for_each cs' body count'
  end.

(** ['{}'.format(z)] *)
Definition format_int (z : Z) : string := NilZero.string_of_int (Z.to_int z).

(** Line 236: [b = (2 + sqrt(2)) / 4]. *)
Definition const_b : result float :=
  r <- math.sqrt 2 ;;
  s <- int_add_float 2 r ;;
  float_div_int s 4.

(** Line 237: [e = 1 + sqrt(2)]. *)
Definition const_e : result float :=
  r <- math.sqrt 2 ;;
  int_add_float 1 r.

(** Line 240: [floor(log10(b) + log10(2)/2 + n*log10(e))]. *)
Definition c_max_of (b e : float) (n : Z) : result Z :=
  lb <- math.log10 b ;;
  l2 <- math.log10_int 2 ;;
  h <- float_div_int l2 2 ;;
  le <- math.log10 e ;;
  p <- int_mul_float n le ;;
  math.floor (F64.add (F64.add lb h) p).

(** Line 245, the first argument of [min]:
    [ceil((c - 1 - log10(b) - log10(2)/2) / log10(e))]. *)
Definition ceil_n (b e : float) (c : Z) : result Z :=
  lb <- math.log10 b ;;
  x <- int_sub_float (c - 1) lb ;;
  l2 <- math.log10_int 2 ;;
  h <- float_div_int l2 2 ;;
  le <- math.log10 e ;;
  q <- truediv (F64.sub x h) le ;;
  math.ceil q.

(** Line 246, the first argument of [min]:
    [ceil((c - 1 - log10(b)) / log10(e))]. *)
Definition ceil_d (b e : float) (c : Z) : result Z :=
  lb <- math.log10 b ;;
  x <- int_sub_float (c - 1) lb ;;
  le <- math.log10 e ;;
  q <- truediv x le ;;
  math.ceil q.

(** Line 245: [i_n = min(ceil(...), n)]. *)
Definition i_n (b e : float) (c n : Z) : result Z :=
  k <- ceil_n b e c ;; Ok (Z.min k n).

(** Line 246: [i_d = min(ceil(...), 1000)]. *)
Definition i_d (b e : float) (c : Z) : result Z :=
  k <- ceil_d b e c ;; Ok (Z.min k 1000).

(** Lines 243-247, one turn of the loop. *)
Definition loop_body (b e : float) (n c count : Z) : result Z :=
  i_n' <- i_n b e c n ;;
  i_d' <- i_d b e c ;;
  Ok (count + (i_d' - i_n')).

(** Lines 236-248. *)
Definition main_int (n : Z) : M Z :=
  b <~ lift const_b ;;
  e <~ lift const_e ;;
  c_max <~ lift (c_max_of b e n) ;;
  print ("Max numbers of digits is " ++ format_int c_max) ;;;
  lift (for_each (range 1 (c_max + 1)) (loop_body b e n) 0).

(** Line 39, then the body: [assert type(n) == int and n > 0]. *)
Definition main (v : value) : M Z :=
  match v with
  | VInt n => assert_ (0 <? n) ;;; main_int n
  | _ => lift (Raise AssertionError)
  end.

(** What a call [main(n)] from a fresh output returns: the [count] of the
    specification. *)
Definition count (n : Z) : result Z := snd (main (VInt n) []).

(** What it prints. *)
Definition printed (n : Z) : stdout := fst (main (VInt n) []).

(** ** The constants of the run *)

Definition get (r : result float) : float :=
  match r with Ok x => x | Raise _ => S754_nan end.

(** [b], [e], [log10(b)], [log10(2)], [log10(2)/2] and [log10(e)] as
    floats. *)
Definition b_val : float := Eval vm_compute in get const_b.
Definition e_val : float := Eval vm_compute in get const_e.
Definition log_b : float := Eval vm_compute in get (math.log10 b_val).
Definition log_2 : float := Eval vm_compute in get (math.log10_int 2).
Definition half_log_2 : float :=
  Eval vm_compute in get (float_div_int log_2 2).
Definition log_e : float := Eval vm_compute in get (math.log10 e_val).

(** The expressions of lines 240, 245 and 246 on given values [lb], [hl]
    and [le] of the three logarithms. *)
Section Logarithms.
Variables lb hl le : float.

Definition c_max_with (n : Z) : result Z :=
  p <- int_mul_float n le ;;
  math.floor (F64.add (F64.add lb hl) p).

Definition ceil_n_with (c : Z) : result Z :=
  x <- int_sub_float (c - 1) lb ;;
  q <- truediv (F64.sub x hl) le ;;
  math.ceil q.

Definition ceil_d_with (c : Z) : result Z :=
  x <- int_sub_float (c - 1) lb ;;
  q <- truediv x le ;;
  math.ceil q.

Definition loop_body_with (n c count : Z) : result Z :=
  kn <- ceil_n_with c ;;
  kd <- ceil_d_with c ;;
  Ok (count + (Z.min kd 1000 - Z.min kn n)).

Definition count_with (n : Z) : result Z :=
  c_max <- c_max_with n ;;
  for_each (range 1 (c_max + 1)) (loop_body_with n) 0.

End Logarithms.

(** On the constants of the run. *)
Definition c_max_at : Z -> result Z := c_max_with log_b half_log_2 log_e.
Definition ceil_n_at : Z -> result Z := ceil_n_with log_b half_log_2 log_e.
Definition ceil_d_at : Z -> result Z := ceil_d_with log_b log_e.
Definition loop_body_at : Z -> Z -> Z -> result Z :=
  loop_body_with log_b half_log_2 log_e.
Definition count_at : Z -> result Z := count_with log_b half_log_2 log_e.

(** A float and its two neighbours: a logarithm one unit in the last place
    off. *)
Definition nearby (x : float) : list float :=
  [SFpred F64.prec F64.emax x; x; SFsucc F64.prec F64.emax x].

Definition all_nearby (p : float -> float -> float -> bool) : bool :=
  forallb (fun lb =>
    forallb (fun hl =>
      forallb (fun le => p lb hl le) (nearby log_e))
      (nearby half_log_2))
    (nearby log_b).

(** ** The exact recurrence *)

(** Modelled from the spec: the exact integer recurrence of the convergents
    (section 3; Idea 1 in the comments of [main], lines 56-64), which the
    program never runs: [n_0 = d_0 = 1], [n_{i+1} = n_i + 2 d_i],
    [d_{i+1} = n_i + d_i]. *)
Definition step (p : Z * Z) : Z * Z :=
  let (n, d) := p in (n + 2 * d, n + d).

Fixpoint expansion (i : nat) : Z * Z :=
  match i with
  | O => (1, 1)
  | S i' => step (expansion i')
  end.

Definition numer (i : nat) : Z := fst (expansion i).
Definition denom (i : nat) : Z := snd (expansion i).

(** Modelled from the spec: [digits(x) = floor(log10(x)) + 1] on positive
    integers (section 3), the logarithm by repeated division. *)
Fixpoint ilog10 (fuel : nat) (x : Z) : Z :=
  match fuel with
  | O => 0
  | S fuel' => if x <? 10 then 0 else 1 + ilog10 fuel' (x / 10)
  end.

Definition digits (x : Z) : Z := ilog10 (Z.to_nat (Z.log2 x)) x + 1.

Definition excess (p : Z * Z) : bool := digits (snd p) <? digits (fst p).

(** Modelled from the spec: the brute-force oracle of section 8, which
    generates the expansions 1 to [k] after [p] and counts those whose
    numerator has more digits than the denominator. *)
Fixpoint brute_from (k : nat) (p : Z * Z) (acc : Z) : Z :=
  match k with
  | O => acc
  | S k' =>
      let p' := step p in
      brute_from k' p' (if excess p' then acc + 1 else acc)
  end.

Definition brute_count (n : nat) : Z := brute_from n (1, 1) 0.

(** Claim 6 as the specification words it: the clamp of [i_d] is the
    argument [n]. *)
Definition i_d_spec (b e : float) (c n : Z) : result Z :=
  k <- ceil_d b e c ;; Ok (Z.min k n).


(** Decision procedures for the tables of the proofs below. *)
Definition c_max_in_loop_range (n : Z) : bool :=
  match c_max_at n with
  | Ok k => (1 <=? k) && (k <=? 382)
  | Raise _ => false
  end.

Definition ceil_n_below_ceil_d (c : Z) : bool :=
  match ceil_n_at c, ceil_d_at c with
  | Ok kn, Ok kd => kn <=? kd
  | _, _ => false
  end.

Definition returns_at_least_1 (n : Z) : bool :=
  match c_max_at n, count_at n with
  | Ok k, Ok r => (1 <=? k) && (1 <=? r)
  | _, _ => false
  end.

(** A computation that may fail, but not on an assertion. *)
Definition no_assert {A} (r : result A) : Prop := r <> Raise AssertionError.

(** The argument is an [int] above zero. *)
Definition positive_int (v : value) : Prop := exists n, v = VInt n /\ 0 < n.

(** ** Tables for the first thousand expansions *)

Definition val (r : result Z) : Z :=
  match r with Ok k => k | Raise _ => 0 end.

(** The two ceilings of lines 245 and 246 at a threshold, and their table
    for the thresholds 1 to 382. *)
Definition turn_of (c : Z) : Z * Z := (val (ceil_n_at c), val (ceil_d_at c)).

Definition turn_table : list (Z * Z) :=
  Eval vm_compute in map turn_of (range 1 383).

(** One turn of the loop on a row of the table, and the loop on its first
    [c_max] rows. *)
Definition add_turn (n : Z) (a : Z) (t : Z * Z) : Z :=
  a + (Z.min (snd t) 1000 - Z.min (fst t) n).

Definition count_tab (n c_max : Z) : Z :=
  fold_left (add_turn n) (firstn (Z.to_nat c_max) turn_table) 0.

(** [digits x] with [10 ^ (digits x - 1)], tried first at a guess [g] and
    at [g + 1], where [pw] is [10 ^ (g - 1)]. *)
Definition digits_near (g pw x : Z) : Z * Z :=
  if (1 <=? g) && (pw <=? x) && (x <? 10 * pw) then (g, pw)
  else if (1 <=? g) && (10 * pw <=? x) && (x <? 100 * pw)
       then (g + 1, 10 * pw)
       else (digits x, 10 ^ (digits x - 1)).

(** A row for the expansion [i]: the digits of its numerator and of its
    denominator, and the brute-force count up to it. *)
Definition row : Type := nat * Z * Z * Z.

Definition row_of (i : nat) : row :=
  (i, digits (numer i), digits (denom i), brute_count i).

Definition row_0 : row := (0%nat, 1, 1, 0).

Fixpoint rows_from (k i : nat) (p : Z * Z) (gn gd : Z * Z) (acc : Z)
  : list row :=
  match k with
  | O => []
  | S k' =>
      let p' := step p in
      let gn' := digits_near (fst gn) (snd gn) (fst p') in
      let gd' := digits_near (fst gd) (snd gd) (snd p') in
      let acc' := if fst gd' <? fst gn' then acc + 1 else acc in
      (S i, fst gn', fst gd', acc') :: rows_from k' (S i) p' gn' gd' acc'
  end.

Definition rows (k : nat) : list row := rows_from k 0 (1, 1) (1, 1) (1, 1) 0.

Definition rows_1000 : list row := Eval vm_compute in rows 1000.

Definition row_at (j : Z) : row := nth (Z.to_nat j - 1) rows_1000 row_0.

(** What is checked of each row: [c_max] is one less than the digits of the
    numerator; the loop, run on the table, ends between the brute-force
    count and one more; and no ceiling it meets is above [n]. *)
Definition row_ok (r : row) : bool :=
  let '(i, dn, dd, s) := r in
  let n := Z.of_nat i in
  match c_max_at n with
  | Ok k =>
      (0 <=? k) && (k <=? 382) && (k + 1 =? dn)
      && (s <=? count_tab n k) && (count_tab n k <=? s + 1)
      && forallb (fun t => (fst t <=? n) && (snd t <=? n))
           (firstn (Z.to_nat k) turn_table)
  | Raise _ => false
  end.

(** The value returned, read off the table. *)
Definition count_val (n : Z) : Z := count_tab n (val (c_max_at n)).

Definition count_val_grows (n : Z) : bool := count_val n <=? count_val (n + 1).

(** What is checked of each threshold: both ceilings are indices where the
    exact numerator, or denominator, gets its [c]-th digit. *)
Definition crossing_ok (c : Z) : bool :=
  let '(kn, kd) := turn_of c in
  let '(_, dn0, _, _) := row_at (kn - 1) in
  let '(_, dn1, _, _) := row_at kn in
  let '(_, _, dd0, _) := row_at (kd - 1) in
  let '(_, _, dd1, _) := row_at kd in
  (2 <=? kn) && (kn <=? 1000) && (2 <=? kd) && (kd <=? 1000)
  && (dn0 <? c) && (c <=? dn1) && (dd0 <? c) && (c <=? dd1).

(** What is checked of each threshold: the denominator gets its [c]-th
    digit at the index where the numerator does, or at the next. *)
Definition turn_0_or_1 (c : Z) : bool :=
  let '(kn, kd) := turn_of c in (kn <=? kd) && (kd <=? kn + 1).

(** ** The script *)

(** What [int(input(...))] on line 252 meets on standard input: its end, a
    line that is no integer, or the integer it reads. *)
Inductive answer : Type :=
| End_of_file
| Not_a_number
| Number (n : Z).

(** What reaches the terminal: the prompt of [input], which ends no line,
    and the lines of [print]. *)
Inductive event : Type :=
| Prompt (s : string)
| Line (s : string).

(** How the script ends when no exception does it: [EOFError] from
    [input], or one of [exn]. *)
Inductive uncaught : Type :=
| EOFError
| Uncaught (e : exn).

Definition prompt : event := Prompt "Enter a natural number: ".

Definition label : string :=
  "Number of expansions of sqrt(2) sequence having more numerator digits than denominator:".

(** Lines 251-255, run as a program. *)
Definition script (a : answer) : list event * option uncaught :=
  match a with
  | End_of_file => ([prompt], Some EOFError)
  | Not_a_number => ([prompt], Some (Uncaught ValueError))
  | Number n =>
      match main (VInt n) [] with
      | (out, Raise e) => (prompt :: map Line out, Some (Uncaught e))
      | (out, Ok r) =>
          (prompt :: map Line out
             ++ [Line label; Line ("  " ++ format_int r)], None)
      end
  end.

(** * Properties *)

(** ** The error monad *)

Lemma bind_Ok {A B} (a : A) (k : A -> result B) : bind (Ok a) k = k a.
Proof. reflexivity. Qed.

Lemma bind_Raise {A B} (e : exn) (k : A -> result B) :
  bind (Raise e) k = Raise e.
Proof. reflexivity. Qed.

Lemma bind_ext {A B} (m : result A) (k k' : A -> result B) :
  (forall a, k a = k' a) -> bind m k = bind m k'.
Proof. intros H. destruct m as [a|e]; [apply H | reflexivity]. Qed.

Lemma no_assert_bind {A B} (m : result A) (k : A -> result B) :
  no_assert m -> (forall a, no_assert (k a)) -> no_assert (bind m k).
Proof.
  unfold no_assert. intros Hm Hk. destruct m as [a|e]; simpl.
  - apply Hk.
  - intros H. apply Hm. inversion H. reflexivity.
Qed.

Lemma no_assert_Ok {A} (a : A) : no_assert (Ok a).
Proof. discriminate. Qed.

Lemma for_each_ext (cs : list Z) (f g : Z -> Z -> result Z) :
  (forall c k, f c k = g c k) ->
  forall k, for_each cs f k = for_each cs g k.
Proof.
  intros H. induction cs as [|c cs IH]; intros k; simpl.
  - reflexivity.
  - rewrite H. apply bind_ext. exact IH.
Qed.

Lemma in_range (lo hi x : Z) : In x (range lo hi) <-> lo <= x < hi.
Proof.
  unfold range. rewrite in_map_iff. split.
  - intros [k [<- Hk]]. apply in_seq in Hk. lia.
  - intros H. exists (Z.to_nat (x - lo)). split; [lia|].
    apply in_seq. lia.
Qed.

Lemma range_cons (lo hi : Z) :
  lo < hi -> range lo hi = lo :: range (lo + 1) hi.
Proof.
  intros H. unfold range.
  replace (Z.to_nat (hi - lo)) with (S (Z.to_nat (hi - (lo + 1)))) by lia.
  rewrite <- cons_seq, <- seq_shift, map_cons, map_map.
  f_equal; [simpl; lia|]. apply map_ext. intros k. lia.
Qed.

(** ** The constants of the run *)

Lemma const_b_val : const_b = Ok b_val.
Proof. vm_compute. reflexivity. Qed.

Lemma const_e_val : const_e = Ok e_val.
Proof. vm_compute. reflexivity. Qed.

Lemma log10_b_val : math.log10 b_val = Ok log_b.
Proof. vm_compute. reflexivity. Qed.

Lemma log10_2_val : math.log10_int 2 = Ok log_2.
Proof. vm_compute. reflexivity. Qed.

Lemma half_log_2_val : float_div_int log_2 2 = Ok half_log_2.
Proof. vm_compute. reflexivity. Qed.

Lemma log10_e_val : math.log10 e_val = Ok log_e.
Proof. vm_compute. reflexivity. Qed.

(** The three logarithms do not depend on the working precision: with 300
    bits they round to the same floats. *)
Lemma log10_precision_free :
  math.log10_finite 300 7688125463633382 (-53) = log_b /\
  math.log10_finite 300 4503599627370496 (-51) = log_2 /\
  math.log10_finite 300 5436325649948134 (-51) = log_e.
Proof. vm_compute. repeat split. Qed.

Lemma c_max_at_eq (n : Z) : c_max_of b_val e_val n = c_max_at n.
Proof.
  unfold c_max_of, c_max_at, c_max_with.
  rewrite log10_b_val, bind_Ok, log10_2_val, bind_Ok.
  rewrite half_log_2_val, bind_Ok, log10_e_val, bind_Ok.
  reflexivity.
Qed.

Lemma ceil_n_at_eq (c : Z) : ceil_n b_val e_val c = ceil_n_at c.
Proof.
  unfold ceil_n, ceil_n_at, ceil_n_with.
  rewrite log10_b_val, bind_Ok. apply bind_ext. intros x.
  rewrite log10_2_val, bind_Ok, half_log_2_val, bind_Ok.
  rewrite log10_e_val, bind_Ok. reflexivity.
Qed.

Lemma ceil_d_at_eq (c : Z) : ceil_d b_val e_val c = ceil_d_at c.
Proof.
  unfold ceil_d, ceil_d_at, ceil_d_with.
  rewrite log10_b_val, bind_Ok. apply bind_ext. intros x.
  rewrite log10_e_val, bind_Ok. reflexivity.
Qed.

Lemma loop_body_at_eq (n c k : Z) :
  loop_body b_val e_val n c k = loop_body_at n c k.
Proof.
  unfold loop_body, i_n, i_d.
  rewrite ceil_n_at_eq, ceil_d_at_eq.
  change (loop_body_at n c k)
    with (kn <- ceil_n_at c ;; kd <- ceil_d_at c ;;
          Ok (k + (Z.min kd 1000 - Z.min kn n))).
  destruct (ceil_n_at c) as [kn|]; [|reflexivity].
  rewrite !bind_Ok.
  destruct (ceil_d_at c) as [kd|]; reflexivity.
Qed.

(** [main] on an [int]: the assertion, then the loop on the constants. *)
Lemma main_int_at (n : Z) (out : stdout) :
  main_int n out =
  match c_max_at n with
  | Ok c_max =>
      (out ++ [("Max numbers of digits is " ++ format_int c_max)%string],
       for_each (range 1 (c_max + 1)) (loop_body_at n) 0)
  | Raise e => (out, Raise e)
  end.
Proof.
  unfold main_int, bindM, lift, print.
  rewrite const_b_val, const_e_val, c_max_at_eq.
  destruct (c_max_at n) as [c_max|e]; [|reflexivity].
  f_equal. apply for_each_ext. intros c k. apply loop_body_at_eq.
Qed.

Lemma count_at_eq (n : Z) :
  count n = if 0 <? n then count_at n else Raise AssertionError.
Proof.
  unfold count, main, assert_, bindM, lift.
  destruct (0 <? n); [|reflexivity].
  rewrite main_int_at.
  change (count_at n)
    with (c_max <- c_max_at n ;;
          for_each (range 1 (c_max + 1)) (loop_body_at n) 0).
  destruct (c_max_at n); reflexivity.
Qed.

(** ** The values returned *)

(** C1: called with 1000, [main] returns 153. *)
Theorem count_1000 : count 1000 = Ok 153.
Proof. rewrite count_at_eq. vm_compute. reflexivity. Qed.

(** C5: called with 8, [main] returns 1; of the first eight expansions only
    the eighth, 1393/985, has more digits above than below. *)
Theorem count_8 :
  count 8 = Ok 1 /\
  expansion 8 = (1393, 985) /\
  filter (fun i => excess (expansion i)) (seq 1 8) = [8%nat] /\
  brute_count 8 = 1.
Proof. rewrite count_at_eq. vm_compute. repeat split. Qed.

(** Both values stand when each logarithm is moved to a neighbouring
    float, whichever way: they do not hang on the last bit of [log10]. *)
Lemma count_1000_8_stable :
  all_nearby (fun lb hl le =>
    match count_with lb hl le 1000, count_with lb hl le 8 with
    | Ok r, Ok r' => (r =? 153) && (r' =? 1)
    | _, _ => false
    end) = true.
Proof. vm_compute. reflexivity. Qed.

(** C2: called with 3, [main] returns 1, while none of the expansions 3/2,
    7/5 and 17/12 has more digits above than below: the exact recurrence
    counts 0. *)
Theorem count_3_differs_from_brute_force :
  count 3 = Ok 1 /\
  map expansion (seq 1 3) = [(3, 2); (7, 5); (17, 12)] /\
  brute_count 3 = 0.
Proof. rewrite count_at_eq. vm_compute. repeat split. Qed.

(** C3: called with 1032, [main] returns -29. *)
Theorem count_1032_negative : count 1032 = Ok (-29).
Proof. rewrite count_at_eq. vm_compute. reflexivity. Qed.

(** C4: called with 1002, [main] returns 154; called with 1003, it returns
    153. *)
Theorem count_1002_1003_decreases :
  count 1002 = Ok 154 /\ count 1003 = Ok 153.
Proof. rewrite !count_at_eq. vm_compute. split; reflexivity. Qed.

(** C6: at the threshold 385, which the loop reaches when [main] is called
    with 2000, the ceiling is 1004 and line 246 clamps it to the literal
    1000; clamped to the argument it would be 1004. *)
Theorem i_d_clamps_to_1000 :
  (exists c_max, c_max_of b_val e_val 2000 = Ok c_max /\ 385 <= c_max) /\
  ceil_d b_val e_val 385 = Ok 1004 /\
  i_d b_val e_val 385 = Ok 1000 /\
  i_d_spec b_val e_val 385 2000 = Ok 1004.
Proof.
  unfold i_d, i_d_spec. rewrite c_max_at_eq, ceil_d_at_eq.
  split; [exists 765; split; [vm_compute; reflexivity | lia]|].
  vm_compute. repeat split.
Qed.

(** C9: called with 8, [main] computes and prints [c_max = 3], while the
    eighth numerator, 1393, has 4 digits. *)
Theorem c_max_8_is_not_digits :
  c_max_of b_val e_val 8 = Ok 3 /\
  printed 8 = ["Max numbers of digits is 3"%string] /\
  numer 8 = 1393 /\
  digits (numer 8) = 4.
Proof.
  rewrite c_max_at_eq. unfold printed, main, assert_, bindM, lift.
  simpl (0 <? 8). cbv iota beta. rewrite main_int_at.
  vm_compute. repeat split.
Qed.

(** ** The exact recurrence *)

Lemma ilog10_nonneg (fuel : nat) (x : Z) : 0 <= ilog10 fuel x.
Proof.
  revert x. induction fuel as [|fuel IH]; intros x; cbn [ilog10]; [lia|].
  destruct (x <? 10); [lia|]. specialize (IH (x / 10)). lia.
Qed.

(** With enough fuel, [ilog10] is the integer part of the logarithm. *)
Lemma ilog10_spec (fuel : nat) :
  forall x, 1 <= x < 2 ^ (Z.of_nat fuel + 1) ->
  10 ^ ilog10 fuel x <= x < 10 ^ (ilog10 fuel x + 1).
Proof.
  induction fuel as [|fuel IH]; intros x Hx.
  - simpl in *. lia.
  - cbn [ilog10]. destruct (Z.ltb_spec x 10) as [Hlt|Hge].
    + simpl. lia.
    + assert (Hpow : 2 ^ (Z.of_nat (S fuel) + 1) = 2 * 2 ^ (Z.of_nat fuel + 1)).
      { rewrite <- Z.pow_succ_r by lia. f_equal. lia. }
      assert (Hq : 1 <= x / 10 < 2 ^ (Z.of_nat fuel + 1)).
      { split.
        - apply Z.div_le_lower_bound; lia.
        - apply Z.div_lt_upper_bound; lia. }
      specialize (IH _ Hq).
      pose proof (ilog10_nonneg fuel (x / 10)) as Hk.
      pose proof (Z.div_mod x 10 ltac:(lia)) as Hdm.
      pose proof (Z.mod_pos_bound x 10 ltac:(lia)) as Hm.
      replace (1 + ilog10 fuel (x / 10) + 1)
        with (Z.succ (ilog10 fuel (x / 10) + 1)) by lia.
      replace (1 + ilog10 fuel (x / 10))
        with (Z.succ (ilog10 fuel (x / 10))) by lia.
      rewrite !Z.pow_succ_r by lia. lia.
Qed.

(** [digits x] is the length of [x] in base ten. *)
Lemma digits_spec (x : Z) :
  1 <= x -> 10 ^ (digits x - 1) <= x < 10 ^ digits x.
Proof.
  intros Hx. unfold digits.
  replace (ilog10 (Z.to_nat (Z.log2 x)) x + 1 - 1)
    with (ilog10 (Z.to_nat (Z.log2 x)) x) by lia.
  apply ilog10_spec. split; [exact Hx|].
  pose proof (Z.log2_nonneg x) as Hl.
  rewrite Z2Nat.id by exact Hl.
  replace (Z.log2 x + 1) with (Z.succ (Z.log2 x)) by lia.
  apply Z.log2_spec. lia.
Qed.

Lemma digits_pos (x : Z) : 1 <= digits x.
Proof. unfold digits. pose proof (ilog10_nonneg (Z.to_nat (Z.log2 x)) x). lia. Qed.

Lemma digits_mono (x y : Z) : 1 <= x <= y -> digits x <= digits y.
Proof.
  intros [Hx Hxy].
  pose proof (digits_spec x Hx) as [Hlo _].
  pose proof (digits_spec y ltac:(lia)) as [_ Hhi].
  pose proof (digits_pos x). pose proof (digits_pos y).
  assert (Hp : 10 ^ (digits x - 1) < 10 ^ digits y) by lia.
  apply Z.pow_lt_mono_r_iff in Hp; lia.
Qed.

(** Ten times a number has at most one digit more. *)
Lemma digits_below_tenfold (x y : Z) :
  1 <= x -> 1 <= y -> x < 10 * y -> digits x <= digits y + 1.
Proof.
  intros Hx Hy Hxy.
  pose proof (digits_spec x Hx) as [Hlo _].
  pose proof (digits_spec y Hy) as [_ Hhi].
  pose proof (digits_pos x). pose proof (digits_pos y).
  assert (Hp : 10 ^ (digits x - 1) < 10 ^ (digits y + 1)).
  { replace (digits y + 1) with (Z.succ (digits y)) by lia.
    rewrite Z.pow_succ_r by lia. lia. }
  apply Z.pow_lt_mono_r_iff in Hp; lia.
Qed.

(** The numerator lies between the denominator and its double. *)
Lemma expansion_bounds (i : nat) :
  1 <= denom i /\ denom i <= numer i /\ numer i <= 2 * denom i.
Proof.
  unfold numer, denom. induction i as [|i IH].
  - simpl. lia.
  - cbn [expansion]. destruct (expansion i) as [n d].
    unfold step. cbn [fst snd] in *. lia.
Qed.

(** C8: at every index of the exact recurrence the numerator has as many
    decimal digits as the denominator, or one more. *)
Theorem digits_difference_0_or_1 (i : nat) :
  digits (numer i) - digits (denom i) = 0 \/
  digits (numer i) - digits (denom i) = 1.
Proof.
  destruct (expansion_bounds i) as [Hd [Hdn Hn]].
  pose proof (digits_mono (denom i) (numer i) ltac:(lia)).
  pose proof (digits_below_tenfold (numer i) (denom i)
                ltac:(lia) Hd ltac:(lia)).
  lia.
Qed.

(** ** The assertion *)

Lemma no_assert_float_of_int (z : Z) : no_assert (float_of_int z).
Proof. unfold float_of_int. destruct (F64.round z 0); discriminate. Qed.

Lemma no_assert_truediv (x y : float) : no_assert (truediv x y).
Proof. unfold truediv. destruct (F64.is_zero y); discriminate. Qed.

Lemma no_assert_floor (x : float) : no_assert (math.floor x).
Proof. destruct x; discriminate. Qed.

Lemma no_assert_ceil (x : float) : no_assert (math.ceil x).
Proof. destruct x; discriminate. Qed.

Create HintDb no_assert.
#[local] Hint Resolve no_assert_Ok no_assert_float_of_int no_assert_truediv
  no_assert_floor no_assert_ceil : no_assert.

Ltac no_assert_steps :=
  repeat (apply no_assert_bind; [|intros ?]); auto with no_assert.

Lemma no_assert_c_max_at (n : Z) : no_assert (c_max_at n).
Proof. unfold c_max_at, c_max_with, int_mul_float. no_assert_steps. Qed.

Lemma no_assert_ceil_n_at (c : Z) : no_assert (ceil_n_at c).
Proof. unfold ceil_n_at, ceil_n_with, int_sub_float. no_assert_steps. Qed.

Lemma no_assert_ceil_d_at (c : Z) : no_assert (ceil_d_at c).
Proof. unfold ceil_d_at, ceil_d_with, int_sub_float. no_assert_steps. Qed.

Lemma no_assert_loop_body_at (n c k : Z) : no_assert (loop_body_at n c k).
Proof.
  unfold loop_body_at, loop_body_with, ceil_n_with, ceil_d_with,
    int_sub_float.
  no_assert_steps.
Qed.

Lemma no_assert_for_each (n : Z) (cs : list Z) :
  forall k, no_assert (for_each cs (loop_body_at n) k).
Proof.
  induction cs as [|c cs IH]; intros k; cbn [for_each].
  - apply no_assert_Ok.
  - apply no_assert_bind; [apply no_assert_loop_body_at | exact IH].
Qed.

(** Past the assertion, no [AssertionError]. *)
Lemma no_assert_main_int (n : Z) (out : stdout) :
  no_assert (snd (main_int n out)).
Proof.
  rewrite main_int_at. pose proof (no_assert_c_max_at n) as H.
  destruct (c_max_at n) as [c_max|e]; cbn [snd].
  - apply no_assert_for_each.
  - exact H.
Qed.

Lemma main_rejects (v : value) (out : stdout) :
  ~ positive_int v -> main v out = (out, Raise AssertionError).
Proof.
  intros Hv. destruct v as [n| | | |]; try reflexivity.
  unfold main, assert_, bindM, lift.
  destruct (Z.ltb_spec 0 n) as [Hn|Hn]; [|reflexivity].
  exfalso. apply Hv. exists n. split; [reflexivity | exact Hn].
Qed.

(** C7: [main] fails on its assertion exactly when its argument is not an
    [int] above zero, and then returns nothing and prints nothing; so it
    does at 0 and at -5. *)
Theorem main_asserts_positive_int :
  (forall v out, snd (main v out) = Raise AssertionError <-> ~ positive_int v) /\
  (forall v out, ~ positive_int v -> main v out = (out, Raise AssertionError)) /\
  count 0 = Raise AssertionError /\
  count (-5) = Raise AssertionError.
Proof.
  split; [|split; [exact main_rejects | split; reflexivity]].
  intros v out. split.
  - intros Hr [n [-> Hn]]. revert Hr.
    unfold main, assert_, bindM, lift.
    apply Z.ltb_lt in Hn. rewrite Hn.
    pose proof (no_assert_main_int n out) as H.
    destruct (main_int n out) as [out' r]. cbn [snd] in *. exact H.
  - intros Hv. rewrite main_rejects by exact Hv. reflexivity.
Qed.

Lemma main_asserts_positive_int_at_minus_5 :
  ~ positive_int (VInt (-5)) /\
  main (VInt (-5)) [] = ([], Raise AssertionError).
Proof.
  assert (H : ~ positive_int (VInt (-5))).
  { intros [n [Hv Hn]]. injection Hv as <-. lia. }
  split; [exact H|].
  apply (proj1 (proj2 main_asserts_positive_int)). exact H.
Defined.

(** ** The turn of the loop at [c = 1] *)

Lemma ceil_n_at_1 : ceil_n_at 1 = Ok 0.
Proof. vm_compute. reflexivity. Qed.

Lemma ceil_d_at_1 : ceil_d_at 1 = Ok 1.
Proof. vm_compute. reflexivity. Qed.

Lemma loop_body_at_1 (n k : Z) : 0 < n -> loop_body_at n 1 k = Ok (k + 1).
Proof.
  intros Hn. unfold loop_body_at, loop_body_with.
  fold ceil_n_at ceil_d_at.
  rewrite ceil_n_at_1, bind_Ok, ceil_d_at_1, bind_Ok.
  f_equal. lia.
Qed.

(** Up to 1000 expansions the program goes through at least 1 and at most
    382 thresholds. *)
Lemma c_max_table (n : Z) :
  3 <= n <= 1000 -> exists k, c_max_at n = Ok k /\ 1 <= k <= 382.
Proof.
  intros Hn.
  assert (Hall : forallb c_max_in_loop_range (range 3 1001) = true)
    by (vm_compute; reflexivity).
  rewrite forallb_forall in Hall.
  specialize (Hall n ltac:(apply in_range; lia)).
  unfold c_max_in_loop_range in Hall.
  destruct (c_max_at n) as [k|]; [|discriminate].
  exists k. split; [reflexivity|].
  apply andb_true_iff in Hall. destruct Hall as [H1 H2].
  apply Z.leb_le in H1, H2. lia.
Qed.

(** At each of them the numerator's index is not after the
    denominator's. *)
Lemma ceil_table (c : Z) :
  1 <= c <= 382 ->
  exists kn kd, ceil_n_at c = Ok kn /\ ceil_d_at c = Ok kd /\ kn <= kd.
Proof.
  intros Hc.
  assert (Hall : forallb ceil_n_below_ceil_d (range 1 383) = true)
    by (vm_compute; reflexivity).
  rewrite forallb_forall in Hall.
  specialize (Hall c ltac:(apply in_range; lia)).
  unfold ceil_n_below_ceil_d in Hall.
  destruct (ceil_n_at c) as [kn|]; [|discriminate].
  destruct (ceil_d_at c) as [kd|]; [|discriminate].
  exists kn, kd. apply Z.leb_le in Hall. auto.
Qed.

(** So no turn takes from the total, as long as [n] is at most the 1000 of
    line 246. *)
Lemma for_each_grows (n : Z) (cs : list Z) :
  n <= 1000 ->
  (forall c, In c cs -> 1 <= c <= 382) ->
  forall k, exists r, for_each cs (loop_body_at n) k = Ok r /\ k <= r.
Proof.
  intros Hn. induction cs as [|c cs IH]; intros Hcs k; cbn [for_each].
  - exists k. split; [reflexivity | lia].
  - destruct (ceil_table c (Hcs c (or_introl eq_refl)))
      as [kn [kd [En [Ed Hle]]]].
    unfold loop_body_at at 1. unfold loop_body_with.
    fold ceil_n_at ceil_d_at. rewrite En, bind_Ok, Ed, !bind_Ok.
    destruct (IH (fun c' H => Hcs c' (or_intror H))
                 (k + (Z.min kd 1000 - Z.min kn n))) as [r [Er Hr]].
    exists r. split; [exact Er | lia].
Qed.

Lemma count_at_least_1 (n : Z) :
  3 <= n <= 1000 ->
  exists c_max r,
    c_max_at n = Ok c_max /\ 1 <= c_max /\ count n = Ok r /\ 1 <= r.
Proof.
  intros Hn. destruct (c_max_table n Hn) as [c_max [Ec Hc]].
  rewrite count_at_eq.
  replace (0 <? n) with true by (symmetry; apply Z.ltb_lt; lia).
  unfold count_at, count_with. fold c_max_at loop_body_at.
  rewrite Ec, bind_Ok.
  rewrite range_cons by lia. cbn [for_each].
  rewrite loop_body_at_1, bind_Ok by lia.
  destruct (for_each_grows n (range (1 + 1) (c_max + 1)) ltac:(lia)
              ltac:(intros c Hin; apply in_range in Hin; lia) (0 + 1))
    as [r [Er Hr]].
  exists c_max, r. repeat split; try assumption; lia.
Qed.

(** Past 1000 the turns beyond the threshold 383 take from the total, yet
    it stays at least 1 up to 1031. *)
Lemma count_at_least_1_to_1031 (n : Z) :
  3 <= n <= 1031 ->
  exists c_max r,
    c_max_at n = Ok c_max /\ 1 <= c_max /\ count n = Ok r /\ 1 <= r.
Proof.
  intros Hn. destruct (Z.le_gt_cases n 1000) as [Hle|Hgt].
  - apply count_at_least_1. lia.
  - assert (Hall : forallb returns_at_least_1 (range 1001 1032) = true)
      by (vm_compute; reflexivity).
    rewrite forallb_forall in Hall.
    specialize (Hall n ltac:(apply in_range; lia)).
    unfold returns_at_least_1 in Hall. rewrite count_at_eq.
    replace (0 <? n) with true by (symmetry; apply Z.ltb_lt; lia).
    destruct (c_max_at n) as [k|]; [|discriminate].
    destruct (count_at n) as [r|]; [|discriminate].
    apply andb_true_iff in Hall. destruct Hall as [H1 H2].
    apply Z.leb_le in H1, H2. exists k, r. auto.
Qed.

(** Whenever the loop runs, its turn at [c = 1] adds exactly 1, as [i_n] is
    0 and [i_d] is 1 there whatever [n]; from 3 to 1031 the loop does run
    and [main] returns at least 1; and no expansion with a numerator of one
    digit has more digits above than below. *)
Lemma first_turn_adds_1 :
  (forall n, 0 < n -> i_n b_val e_val 1 n = Ok 0) /\
  i_d b_val e_val 1 = Ok 1 /\
  (forall n k, 0 < n -> loop_body b_val e_val n 1 k = Ok (k + 1)) /\
  (forall n, 3 <= n <= 1031 ->
     exists c_max r,
       c_max_of b_val e_val n = Ok c_max /\ 1 <= c_max /\
       count n = Ok r /\ 1 <= r) /\
  (forall i, digits (numer i) = 1 -> excess (expansion i) = false).
Proof.
  split; [|split; [|split; [|split]]].
  - intros n Hn. unfold i_n. rewrite ceil_n_at_eq, ceil_n_at_1, bind_Ok.
    f_equal. lia.
  - unfold i_d. rewrite ceil_d_at_eq, ceil_d_at_1. reflexivity.
  - intros n k Hn. rewrite loop_body_at_eq. apply loop_body_at_1. exact Hn.
  - intros n Hn. destruct (count_at_least_1_to_1031 n Hn) as [c_max [r H]].
    exists c_max, r. rewrite c_max_at_eq. exact H.
  - intros i Hi. unfold excess. apply Z.ltb_ge.
    fold (numer i) (denom i). pose proof (digits_pos (denom i)). lia.
Qed.

Lemma first_turn_adds_1_at_1031 :
  3 <= 1031 <= 1031 /\
  exists c_max r,
    c_max_of b_val e_val 1031 = Ok c_max /\ 1 <= c_max /\
    count 1031 = Ok r /\ 1 <= r.
Proof.
  split; [lia|].
  apply (proj1 (proj2 (proj2 (proj2 first_turn_adds_1))) 1031). lia.
Defined.

(** C10: called with 1032, [main] runs its loop ([c_max] is 395) and the
    turn at [c = 1] adds 1, with [i_n] at 0 and [i_d] at 1, as the claim
    says; yet it returns -29, which is not at least 1: the twelve turns
    from [c = 384] on, where line 246 holds [i_d] at 1000 while [i_n] is
    above it, take 183 from the total. *)
Theorem count_1032_first_turn_adds_1_total_below_1 :
  c_max_of b_val e_val 1032 = Ok 395 /\
  i_n b_val e_val 1 1032 = Ok 0 /\
  i_d b_val e_val 1 = Ok 1 /\
  loop_body b_val e_val 1032 1 0 = Ok 1 /\
  for_each (range 1 384) (loop_body b_val e_val 1032) 0 = Ok 154 /\
  for_each (range 384 396) (loop_body b_val e_val 1032) 154 = Ok (-29) /\
  count 1032 = Ok (-29) /\
  ~ 1 <= -29.
Proof.
  unfold i_n, i_d.
  rewrite c_max_at_eq, ceil_n_at_eq, ceil_d_at_eq, loop_body_at_eq.
  rewrite !(for_each_ext _ _ _ (loop_body_at_eq 1032)), count_at_eq.
  split; [vm_compute; reflexivity|].
  split; [vm_compute; reflexivity|].
  split; [vm_compute; reflexivity|].
  split; [vm_compute; reflexivity|].
  split; [vm_compute; reflexivity|].
  split; [vm_compute; reflexivity|].
  split; [vm_compute; reflexivity | lia].
Qed.

(** ** The first thousand expansions *)

Lemma digits_unique (k x : Z) :
  1 <= k -> 10 ^ (k - 1) <= x < 10 ^ k -> digits x = k.
Proof.
  intros Hk [Hlo Hhi].
  assert (Hx : 1 <= x).
  { pose proof (Z.pow_pos_nonneg 10 (k - 1) ltac:(lia) ltac:(lia)). lia. }
  pose proof (digits_spec x Hx) as [Hlo' Hhi'].
  pose proof (digits_pos x) as Hd.
  assert (H1 : 10 ^ (k - 1) < 10 ^ digits x) by lia.
  assert (H2 : 10 ^ (digits x - 1) < 10 ^ k) by lia.
  apply Z.pow_lt_mono_r_iff in H1; [|lia|lia].
  apply Z.pow_lt_mono_r_iff in H2; [|lia|lia].
  lia.
Qed.

Lemma digits_near_eq (g x : Z) :
  digits_near g (10 ^ (g - 1)) x = (digits x, 10 ^ (digits x - 1)).
Proof.
  unfold digits_near.
  destruct ((1 <=? g) && (10 ^ (g - 1) <=? x) && (x <? 10 * 10 ^ (g - 1)))
    eqn:E1.
  - apply andb_true_iff in E1. destruct E1 as [E1 E3].
    apply andb_true_iff in E1. destruct E1 as [E1 E2].
    apply Z.leb_le in E1, E2. apply Z.ltb_lt in E3.
    assert (Hd : digits x = g).
    { apply digits_unique; [exact E1|].
      replace g with (Z.succ (g - 1)) at 2 by lia.
      rewrite Z.pow_succ_r by lia. lia. }
    rewrite Hd. reflexivity.
  - destruct ((1 <=? g) && (10 * 10 ^ (g - 1) <=? x)
              && (x <? 100 * 10 ^ (g - 1))) eqn:E2; [|reflexivity].
    apply andb_true_iff in E2. destruct E2 as [E2 E4].
    apply andb_true_iff in E2. destruct E2 as [E2 E3].
    apply Z.leb_le in E2, E3. apply Z.ltb_lt in E4.
    assert (Hp : 10 ^ (g + 1 - 1) = 10 * 10 ^ (g - 1)).
    { replace (g + 1 - 1) with (Z.succ (g - 1)) by lia.
      rewrite Z.pow_succ_r by lia. reflexivity. }
    assert (Hd : digits x = g + 1).
    { apply digits_unique; [lia|]. rewrite Hp.
      replace (g + 1) with (Z.succ (Z.succ (g - 1))) by lia.
      rewrite !Z.pow_succ_r by lia. lia. }
    rewrite Hd, Hp. reflexivity.
Qed.

(** The brute-force count goes up by one at each expansion with more digits
    above than below. *)
Lemma brute_from_last (m : nat) :
  forall i acc,
    brute_from (S m) (expansion i) acc =
    if excess (expansion (i + S m))
    then brute_from m (expansion i) acc + 1
    else brute_from m (expansion i) acc.
Proof.
  induction m as [|m IH]; intros i acc.
  - cbn [brute_from]. replace (i + 1)%nat with (S i) by lia. reflexivity.
  - change (brute_from (S (S m)) (expansion i) acc)
      with (brute_from (S m) (expansion (S i))
              (if excess (expansion (S i)) then acc + 1 else acc)).
    rewrite IH. replace (S i + S m)%nat with (i + S (S m))%nat by lia.
    reflexivity.
Qed.

Lemma brute_count_S (i : nat) :
  brute_count (S i) =
  if digits (denom (S i)) <? digits (numer (S i))
  then brute_count i + 1 else brute_count i.
Proof.
  unfold brute_count.
  change (1, 1) with (expansion 0). rewrite brute_from_last.
  reflexivity.
Qed.

Lemma rows_from_spec (k : nat) :
  forall i gn gd,
    rows_from k i (expansion i) (gn, 10 ^ (gn - 1)) (gd, 10 ^ (gd - 1))
      (brute_count i) =
    map row_of (seq (S i) k).
Proof.
  induction k as [|k IH]; intros i gn gd; [reflexivity|].
  cbn [rows_from seq map fst snd].
  change (step (expansion i)) with (expansion (S i)).
  rewrite !digits_near_eq. cbn [fst snd].
  fold (numer (S i)) (denom (S i)).
  rewrite <- brute_count_S, IH. reflexivity.
Qed.

Lemma rows_1000_spec : rows_1000 = map row_of (seq 1 1000).
Proof.
  transitivity (rows 1000); [vm_compute; reflexivity|].
  apply (rows_from_spec 1000 0 1 1).
Qed.

Lemma row_at_spec (j : Z) :
  1 <= j <= 1000 -> row_at j = row_of (Z.to_nat j).
Proof.
  intros Hj. unfold row_at. rewrite rows_1000_spec.
  change row_0 with (row_of 0).
  rewrite map_nth, seq_nth by lia. f_equal. lia.
Qed.

Lemma row_table (i : nat) :
  (1 <= i <= 1000)%nat -> row_ok (row_of i) = true.
Proof.
  intros Hi.
  assert (Hall : forallb row_ok rows_1000 = true)
    by (vm_compute; reflexivity).
  rewrite forallb_forall in Hall. apply Hall.
  rewrite rows_1000_spec. apply in_map. apply in_seq. lia.
Qed.

Lemma turn_of_table (c : Z) :
  1 <= c <= 382 ->
  ceil_n_at c = Ok (fst (turn_of c)) /\ ceil_d_at c = Ok (snd (turn_of c)) /\
  fst (turn_of c) <= snd (turn_of c).
Proof.
  intros Hc. destruct (ceil_table c Hc) as [kn [kd [En [Ed Hle]]]].
  unfold turn_of. rewrite En, Ed. cbn [val fst snd]. auto.
Qed.

(** The loop is a fold over the table. *)
Lemma for_each_turns (n : Z) (cs : list Z) :
  (forall c, In c cs -> 1 <= c <= 382) ->
  forall acc,
    for_each cs (loop_body_at n) acc =
    Ok (fold_left (add_turn n) (map turn_of cs) acc).
Proof.
  induction cs as [|c cs IH]; intros Hcs acc; [reflexivity|].
  cbn [for_each map fold_left].
  destruct (turn_of_table c (Hcs c (or_introl eq_refl))) as [En [Ed _]].
  unfold loop_body_at at 1. unfold loop_body_with.
  fold ceil_n_at ceil_d_at. rewrite En, bind_Ok, Ed, !bind_Ok.
  apply IH. intros c' H. apply Hcs. right. exact H.
Qed.

Lemma firstn_seq_le (m : nat) :
  forall s len, (m <= len)%nat -> firstn m (seq s len) = seq s m.
Proof.
  induction m as [|m IH]; intros s len H; [reflexivity|].
  destruct len as [|len]; [lia|]. cbn [seq firstn].
  f_equal. apply IH. lia.
Qed.

Lemma firstn_range (lo hi : Z) (m : nat) :
  lo + Z.of_nat m <= hi ->
  firstn m (range lo hi) = range lo (lo + Z.of_nat m).
Proof.
  intros H. unfold range. rewrite firstn_map, firstn_seq_le by lia.
  do 2 f_equal. lia.
Qed.

Lemma turn_table_spec : turn_table = map turn_of (range 1 383).
Proof. vm_compute. reflexivity. Qed.

Lemma firstn_turn_table (k : Z) :
  0 <= k <= 382 ->
  firstn (Z.to_nat k) turn_table = map turn_of (range 1 (k + 1)).
Proof.
  intros Hk. rewrite turn_table_spec, firstn_map, firstn_range by lia.
  do 2 f_equal. lia.
Qed.

Lemma count_at_tab (n k : Z) :
  c_max_at n = Ok k -> 0 <= k <= 382 -> count_at n = Ok (count_tab n k).
Proof.
  intros Ek Hk. unfold count_at, count_with. fold c_max_at loop_body_at.
  rewrite Ek, bind_Ok. unfold count_tab. rewrite firstn_turn_table by exact Hk.
  apply for_each_turns. intros c Hc. apply in_range in Hc. lia.
Qed.

(** What the table says of a call with [n] from 1 to 1000. *)
Lemma main_by_table (n : Z) :
  1 <= n <= 1000 ->
  exists k,
    c_max_at n = Ok k /\ 0 <= k <= 382 /\
    k + 1 = digits (numer (Z.to_nat n)) /\
    count n = Ok (count_tab n k) /\
    brute_count (Z.to_nat n) <= count_tab n k <= brute_count (Z.to_nat n) + 1 /\
    (forall c, 1 <= c <= k ->
       fst (turn_of c) <= n /\ snd (turn_of c) <= n).
Proof.
  intros Hn. pose proof (row_table (Z.to_nat n) ltac:(lia)) as H.
  unfold row_ok, row_of in H. rewrite Z2Nat.id in H by lia.
  destruct (c_max_at n) as [k|] eqn:Ek; [|discriminate].
  repeat (apply andb_true_iff in H; destruct H as [H ?]).
  repeat match goal with
         | E : (_ <=? _) = true |- _ => apply Z.leb_le in E
         | E : (_ =? _) = true |- _ => apply Z.eqb_eq in E
         end.
  exists k. split; [reflexivity|]. split; [lia|]. split; [assumption|].
  split.
  { rewrite count_at_eq.
    replace (0 <? n) with true by (symmetry; apply Z.ltb_lt; lia).
    apply count_at_tab; [exact Ek | lia]. }
  split; [lia|].
  intros c Hc.
  match goal with
  | E : forallb _ _ = true |- _ =>
      rewrite forallb_forall in E; rewrite firstn_turn_table in E by lia;
      specialize (E (turn_of c))
  end.
  assert (Hin : In (turn_of c) (map turn_of (range 1 (k + 1)))).
  { apply in_map. apply in_range. lia. }
  match goal with
  | E : In _ _ -> _ |- _ => specialize (E Hin); apply andb_true_iff in E;
      destruct E as [E1 E2]; apply Z.leb_le in E1, E2
  end.
  split; assumption.
Qed.

Lemma printed_at (n k : Z) :
  0 < n -> c_max_at n = Ok k ->
  printed n = [("Max numbers of digits is " ++ format_int k)%string].
Proof.
  intros Hn Ek. unfold printed, main, assert_, bindM, lift.
  replace (0 <? n) with true by (symmetry; apply Z.ltb_lt; exact Hn).
  cbv iota beta. rewrite main_int_at, Ek. reflexivity.
Qed.

(** X1: called with [n] from 1 to 1000, [main] returns the brute-force
    count of the exact recurrence, or one more. *)
Theorem count_within_1_of_brute_force (n : Z) :
  1 <= n <= 1000 ->
  exists r,
    count n = Ok r /\
    brute_count (Z.to_nat n) <= r <= brute_count (Z.to_nat n) + 1.
Proof.
  intros Hn. destruct (main_by_table n Hn) as [k [_ [_ [_ [Er [Hr _]]]]]].
  exists (count_tab n k). split; assumption.
Qed.

Lemma count_within_1_of_brute_force_at_3 :
  1 <= 3 <= 1000 /\
  exists r,
    count 3 = Ok r /\
    brute_count (Z.to_nat 3) <= r <= brute_count (Z.to_nat 3) + 1.
Proof. split; [lia|]. apply (count_within_1_of_brute_force 3). lia. Defined.

(** X2: called with [n] from 1 to 1000, [main] computes and prints as
    [c_max] the number of decimal digits of the [n]-th numerator less
    one. *)
Theorem c_max_is_digits_less_1 (n : Z) :
  1 <= n <= 1000 ->
  c_max_of b_val e_val n = Ok (digits (numer (Z.to_nat n)) - 1) /\
  printed n =
  [("Max numbers of digits is "
      ++ format_int (digits (numer (Z.to_nat n)) - 1))%string].
Proof.
  intros Hn. destruct (main_by_table n Hn) as [k [Ek [_ [Hd _]]]].
  replace (digits (numer (Z.to_nat n)) - 1) with k by lia.
  rewrite c_max_at_eq. split; [exact Ek|].
  apply printed_at; [lia | exact Ek].
Qed.

Lemma c_max_is_digits_less_1_at_8 :
  1 <= 8 <= 1000 /\
  c_max_of b_val e_val 8 = Ok (digits (numer (Z.to_nat 8)) - 1).
Proof.
  split; [lia|]. apply (proj1 (c_max_is_digits_less_1 8 ltac:(lia))).
Defined.

(** X3: called with [n] from 1 to 1000, [main] never has a clamp at work:
    at every threshold of the loop both ceilings are at most [n], so that
    [i_n] and [i_d] are the ceilings themselves and the literal 1000 of
    line 246 gives what the argument [n] would. *)
Theorem clamps_idle_up_to_1000 (n k c : Z) :
  1 <= n <= 1000 ->
  c_max_of b_val e_val n = Ok k ->
  1 <= c <= k ->
  i_n b_val e_val c n = ceil_n b_val e_val c /\
  i_d b_val e_val c = ceil_d b_val e_val c /\
  i_d b_val e_val c = i_d_spec b_val e_val c n.
Proof.
  intros Hn Ek Hc. rewrite c_max_at_eq in Ek.
  destruct (main_by_table n Hn) as [k' [Ek' [Hk [_ [_ [_ Hcl]]]]]].
  rewrite Ek in Ek'. injection Ek' as <-.
  destruct (Hcl c Hc) as [Hkn Hkd].
  destruct (turn_of_table c ltac:(lia)) as [En [Ed _]].
  unfold i_n, i_d, i_d_spec. rewrite ceil_n_at_eq, ceil_d_at_eq, En, Ed.
  rewrite !bind_Ok, !Z.min_l by lia. repeat split.
Qed.

Lemma clamps_idle_up_to_1000_at_8 :
  1 <= 8 <= 1000 /\ c_max_of b_val e_val 8 = Ok 3 /\ 1 <= 3 <= 3 /\
  i_d b_val e_val 3 = i_d_spec b_val e_val 3 8.
Proof.
  assert (E : c_max_of b_val e_val 8 = Ok 3)
    by (rewrite c_max_at_eq; vm_compute; reflexivity).
  split; [lia|]. split; [exact E|]. split; [lia|].
  apply (clamps_idle_up_to_1000 8 3 3); [lia | exact E | lia].
Defined.

Lemma count_is_count_val (n : Z) :
  1 <= n <= 1000 -> count n = Ok (count_val n).
Proof.
  intros Hn. destruct (main_by_table n Hn) as [k [Ek [_ [_ [Er _]]]]].
  unfold count_val. rewrite Ek. exact Er.
Qed.

Lemma count_val_step (n : Z) :
  1 <= n < 1000 -> count_val n <= count_val (n + 1).
Proof.
  intros Hn.
  assert (Hall : forallb count_val_grows (range 1 1000) = true)
    by (vm_compute; reflexivity).
  rewrite forallb_forall in Hall.
  specialize (Hall n ltac:(apply in_range; lia)).
  apply Z.leb_le in Hall. exact Hall.
Qed.

Lemma count_val_mono (m : nat) :
  forall n, 1 <= n -> n + Z.of_nat m <= 1000 ->
  count_val n <= count_val (n + Z.of_nat m).
Proof.
  induction m as [|m IH]; intros n H1 H2.
  - replace (n + Z.of_nat 0) with n by lia. lia.
  - specialize (IH n H1 ltac:(lia)).
    pose proof (count_val_step (n + Z.of_nat m) ltac:(lia)) as Hs.
    replace (n + Z.of_nat (S m)) with (n + Z.of_nat m + 1) by lia. lia.
Qed.

(** X4: up to 1000 the value returned never decreases. *)
Theorem count_monotone_up_to_1000 (n1 n2 : Z) :
  1 <= n1 -> n1 <= n2 -> n2 <= 1000 ->
  exists r1 r2, count n1 = Ok r1 /\ count n2 = Ok r2 /\ r1 <= r2.
Proof.
  intros H1 H12 H2. exists (count_val n1), (count_val n2).
  split; [apply count_is_count_val; lia|].
  split; [apply count_is_count_val; lia|].
  replace n2 with (n1 + Z.of_nat (Z.to_nat (n2 - n1))) by lia.
  apply count_val_mono; lia.
Qed.

Lemma count_monotone_up_to_1000_at_8_13 :
  1 <= 8 /\ 8 <= 13 /\ 13 <= 1000 /\
  exists r1 r2, count 8 = Ok r1 /\ count 13 = Ok r2 /\ r1 <= r2.
Proof.
  split; [lia|]. split; [lia|]. split; [lia|].
  apply (count_monotone_up_to_1000 8 13); lia.
Defined.

(** X5: up to 1000, [main] returns 0 exactly when called with 1 or 2, the
    two calls in which the loop does not run. *)
Theorem count_0_iff_at_most_2 (n : Z) :
  1 <= n <= 1000 -> (count n = Ok 0 <-> n <= 2).
Proof.
  intros Hn. split.
  - intros H0. destruct (Z.le_gt_cases n 2) as [Hle|Hgt]; [exact Hle|].
    destruct (count_at_least_1 n ltac:(lia)) as [c_max [r [_ [_ [Er Hr]]]]].
    rewrite H0 in Er. injection Er as <-. lia.
  - intros Hle. assert (Hc : n = 1 \/ n = 2) by lia.
    destruct Hc as [-> | ->]; rewrite count_at_eq; vm_compute; reflexivity.
Qed.

Lemma count_0_iff_at_most_2_at_2 :
  1 <= 2 <= 1000 /\ count 2 = Ok 0.
Proof.
  split; [lia|]. apply (proj2 (count_0_iff_at_most_2 2 ltac:(lia))). lia.
Defined.

(** ** The crossing indices *)

Lemma expansion_grows (i : nat) :
  numer i <= numer (S i) /\ denom i <= denom (S i).
Proof.
  pose proof (expansion_bounds i) as [Hd [Hdn Hn]].
  unfold numer, denom in *. cbn [expansion].
  destruct (expansion i) as [n d]. unfold step. cbn [fst snd] in *. lia.
Qed.

Lemma expansion_mono (i j : nat) :
  (i <= j)%nat -> numer i <= numer j /\ denom i <= denom j.
Proof.
  induction 1 as [|j Hle IH]; [lia|].
  pose proof (expansion_grows j). lia.
Qed.

Lemma digits_numer_mono (i j : nat) :
  (i <= j)%nat -> digits (numer i) <= digits (numer j).
Proof.
  intros H. apply digits_mono.
  pose proof (expansion_bounds i). pose proof (expansion_mono i j H). lia.
Qed.

Lemma digits_denom_mono (i j : nat) :
  (i <= j)%nat -> digits (denom i) <= digits (denom j).
Proof.
  intros H. apply digits_mono.
  pose proof (expansion_bounds i). pose proof (expansion_mono i j H). lia.
Qed.

(** A monotone digit count crosses [c] at the index [k] where it first
    reaches it. *)
Lemma crossing_iff (f : nat -> Z) (c k : Z) :
  (forall i j, (i <= j)%nat -> f i <= f j) ->
  1 <= k ->
  f (Z.to_nat (k - 1)) < c <= f (Z.to_nat k) ->
  forall j : nat, c <= f j <-> k <= Z.of_nat j.
Proof.
  intros Hmono Hk [Hlo Hhi] j. split.
  - intros Hc. destruct (Z.le_gt_cases k (Z.of_nat j)) as [H|H]; [exact H|].
    pose proof (Hmono j (Z.to_nat (k - 1)) ltac:(lia)). lia.
  - intros Hj. pose proof (Hmono (Z.to_nat k) j ltac:(lia)). lia.
Qed.

Lemma crossing_table (c : Z) :
  2 <= c <= 382 -> crossing_ok c = true.
Proof.
  intros Hc.
  assert (Hall : forallb crossing_ok (range 2 383) = true)
    by (vm_compute; reflexivity).
  rewrite forallb_forall in Hall. apply Hall. apply in_range. lia.
Qed.

(** X6: at every threshold [c] from 2 to 382 the two ceilings of lines 245
    and 246 are the crossing indices of the exact recurrence: an expansion
    has a numerator of at least [c] digits exactly from the first index on,
    and a denominator of at least [c] digits exactly from the second. *)
Theorem ceilings_are_exact_crossings (c : Z) :
  2 <= c <= 382 ->
  exists kn kd,
    ceil_n b_val e_val c = Ok kn /\
    ceil_d b_val e_val c = Ok kd /\
    (forall j : nat, c <= digits (numer j) <-> kn <= Z.of_nat j) /\
    (forall j : nat, c <= digits (denom j) <-> kd <= Z.of_nat j).
Proof.
  intros Hc. pose proof (crossing_table c Hc) as H.
  destruct (turn_of_table c ltac:(lia)) as [En [Ed _]].
  unfold crossing_ok in H.
  destruct (turn_of c) as [kn kd]. cbn [fst snd] in En, Ed.
  destruct (row_at (kn - 1)) as [[[i0 dn0] dd0'] s0] eqn:R0.
  destruct (row_at kn) as [[[i1 dn1] dd1'] s1] eqn:R1.
  destruct (row_at (kd - 1)) as [[[i2 dn2'] dd0] s2] eqn:R2.
  destruct (row_at kd) as [[[i3 dn3'] dd1] s3] eqn:R3.
  repeat (apply andb_true_iff in H; destruct H as [H ?]).
  repeat match goal with
         | E : (_ <=? _) = true |- _ => apply Z.leb_le in E
         | E : (_ <? _) = true |- _ => apply Z.ltb_lt in E
         end.
  rewrite row_at_spec in R0, R1, R2, R3 by lia.
  unfold row_of in R0, R1, R2, R3.
  injection R0 as _ <- _ _. injection R1 as _ <- _ _.
  injection R2 as _ _ <- _. injection R3 as _ _ <- _.
  exists kn, kd. rewrite ceil_n_at_eq, ceil_d_at_eq.
  split; [exact En|]. split; [exact Ed|]. split.
  - apply (crossing_iff (fun j => digits (numer j)));
      [apply digits_numer_mono | lia | lia].
  - apply (crossing_iff (fun j => digits (denom j)));
      [apply digits_denom_mono | lia | lia].
Qed.

Lemma ceilings_are_exact_crossings_at_4 :
  2 <= 4 <= 382 /\
  exists kn kd,
    ceil_n b_val e_val 4 = Ok kn /\
    ceil_d b_val e_val 4 = Ok kd /\
    (forall j : nat, 4 <= digits (numer j) <-> kn <= Z.of_nat j) /\
    (forall j : nat, 4 <= digits (denom j) <-> kd <= Z.of_nat j).
Proof. split; [lia|]. apply (ceilings_are_exact_crossings 4). lia. Defined.

(** ** What is printed *)

(** X7: [main] leaves what was printed before it untouched and adds at most
    one line; when it returns, it has added exactly the line that reports
    [c_max], and its argument was an [int] above zero. *)
Theorem main_prints_c_max (v : value) (out : stdout) :
  (exists more, fst (main v out) = out ++ more /\ (List.length more <= 1)%nat) /\
  (forall r, snd (main v out) = Ok r ->
     exists n k,
       v = VInt n /\ 0 < n /\ c_max_of b_val e_val n = Ok k /\
       fst (main v out) =
       out ++ [("Max numbers of digits is " ++ format_int k)%string]).
Proof.
  destruct v as [n| | | |];
    try (split; [exists []; rewrite app_nil_r; split; [reflexivity|simpl; lia]
                | intros r H; discriminate H]).
  unfold main, assert_, bindM, lift.
  destruct (Z.ltb_spec 0 n) as [Hn|Hn];
    [|split; [exists []; rewrite app_nil_r; split; [reflexivity|simpl; lia]
             | intros r H; discriminate H]].
  rewrite main_int_at. destruct (c_max_at n) as [k|e] eqn:Ek; cbn [fst snd].
  - split; [eexists; split; [reflexivity | simpl; lia]|].
    intros r _. exists n, k. rewrite c_max_at_eq. auto.
  - split; [exists []; rewrite app_nil_r; split; [reflexivity|simpl; lia]|].
    intros r H. discriminate H.
Qed.

(** ** The script *)

Lemma main_fresh (n : Z) : main (VInt n) [] = (printed n, count n).
Proof. unfold printed, count. destruct (main (VInt n) []). reflexivity. Qed.

Lemma main_passes_assertion (n : Z) (out : stdout) :
  0 < n -> no_assert (snd (main (VInt n) out)).
Proof.
  intros Hn. unfold main, assert_, bindM, lift.
  replace (0 <? n) with true by (symmetry; apply Z.ltb_lt; exact Hn).
  cbv iota beta. pose proof (no_assert_main_int n out) as H.
  destruct (main_int n out) as [out' r]. exact H.
Qed.

(** X8: the script ends on [AssertionError] exactly when the integer read
    is zero or below, and has then printed its prompt and nothing else; it
    ends with no exception only on an integer above zero. *)
Theorem script_asserts_sign (a : answer) :
  (snd (script a) = Some (Uncaught AssertionError) <->
   exists n, a = Number n /\ n <= 0) /\
  (forall n, n <= 0 ->
     script (Number n) = ([prompt], Some (Uncaught AssertionError))) /\
  (snd (script a) = None -> exists n, a = Number n /\ 0 < n).
Proof.
  assert (Hneg : forall n, n <= 0 ->
            script (Number n) = ([prompt], Some (Uncaught AssertionError))).
  { intros n Hn. unfold script. rewrite main_rejects; [reflexivity|].
    intros [m [Hv Hm]]. injection Hv as <-. lia. }
  assert (Hpos : forall n, 0 < n ->
            snd (script (Number n)) <> Some (Uncaught AssertionError)).
  { intros n Hn H. unfold script in H.
    pose proof (main_passes_assertion n [] Hn) as Hna.
    destruct (main (VInt n) []) as [out [r|e]]; cbn [snd] in *;
      [discriminate H|].
    injection H as ->. apply Hna. reflexivity. }
  split; [|split; [exact Hneg|]].
  - split.
    + intros H. destruct a as [| |n]; try discriminate H.
      exists n. split; [reflexivity|].
      destruct (Z.le_gt_cases n 0) as [Hle|Hgt]; [exact Hle|].
      exfalso. apply (Hpos n); [lia | exact H].
    + intros [n [-> Hn]]. rewrite Hneg by exact Hn. reflexivity.
  - intros H. destruct a as [| |n]; try discriminate H.
    exists n. split; [reflexivity|].
    destruct (Z.le_gt_cases n 0) as [Hle|Hgt]; [|lia].
    rewrite Hneg in H by exact Hle. discriminate H.
Qed.

(** X9: when the script ends with no exception it has printed, after its
    prompt, three lines and no more: the one of [main] that reports
    [c_max], the label, and two spaces with the value [main] returned. *)
Theorem script_prints_result (a : answer) :
  snd (script a) = None ->
  exists n k r,
    a = Number n /\
    c_max_of b_val e_val n = Ok k /\
    count n = Ok r /\
    fst (script a) =
    [prompt;
     Line ("Max numbers of digits is " ++ format_int k);
     Line label;
     Line ("  " ++ format_int r)].
Proof.
  intros H. destruct a as [| |n]; try discriminate H.
  unfold script in *.
  assert (Hret : forall r, count n = Ok r ->
            exists k, c_max_of b_val e_val n = Ok k /\
              printed n =
              [("Max numbers of digits is " ++ format_int k)%string]).
  { intros r Hr. rewrite count_at_eq in Hr.
    destruct (Z.ltb_spec 0 n) as [Hn|Hn]; [|discriminate Hr].
    unfold count_at, count_with in Hr. fold c_max_at in Hr.
    destruct (c_max_at n) as [k|] eqn:Ek; [|discriminate Hr].
    exists k. rewrite c_max_at_eq. split; [exact Ek|].
    apply printed_at; assumption. }
  pose proof (main_fresh n) as Hm.
  destruct (main (VInt n) []) as [out [r|e]]; [|discriminate H].
  injection Hm as Hout Hr.
  destruct (Hret r ltac:(symmetry; exact Hr)) as [k [Ek Ep]].
  exists n, k, r. split; [reflexivity|]. split; [exact Ek|].
  split; [symmetry; exact Hr|].
  cbn [fst]. rewrite Hout, Ep. reflexivity.
Qed.

Lemma script_prints_result_at_8 :
  snd (script (Number 8)) = None /\
  exists n k r,
    Number 8 = Number n /\
    c_max_of b_val e_val n = Ok k /\
    count n = Ok r /\
    fst (script (Number 8)) =
    [prompt;
     Line ("Max numbers of digits is " ++ format_int k);
     Line label;
     Line ("  " ++ format_int r)].
Proof.
  assert (H : snd (script (Number 8)) = None) by (vm_compute; reflexivity).
  split; [exact H|]. apply (script_prints_result (Number 8)). exact H.
Defined.

(** X10: on an integer [n] from 1 to 1000 the script ends with no
    exception; the [c_max] it prints is the number of digits of the [n]-th
    numerator less one, and the value it prints is the brute-force count of
    the exact recurrence, or one more. *)
Theorem script_up_to_1000 (n : Z) :
  1 <= n <= 1000 ->
  exists r,
    brute_count (Z.to_nat n) <= r <= brute_count (Z.to_nat n) + 1 /\
    script (Number n) =
    ([prompt;
      Line ("Max numbers of digits is "
              ++ format_int (digits (numer (Z.to_nat n)) - 1));
      Line label;
      Line ("  " ++ format_int r)], None).
Proof.
  intros Hn. destruct (main_by_table n Hn) as [k [Ek [_ [Hd [Er [Hr _]]]]]].
  exists (count_tab n k). split; [exact Hr|].
  unfold script. rewrite main_fresh, Er, (printed_at n k) by (lia || exact Ek).
  replace (digits (numer (Z.to_nat n)) - 1) with k by lia.
  reflexivity.
Qed.

Lemma script_up_to_1000_at_1000 :
  1 <= 1000 <= 1000 /\
  exists r,
    brute_count (Z.to_nat 1000) <= r <= brute_count (Z.to_nat 1000) + 1 /\
    script (Number 1000) =
    ([prompt;
      Line ("Max numbers of digits is "
              ++ format_int (digits (numer (Z.to_nat 1000)) - 1));
      Line label;
      Line ("  " ++ format_int r)], None).
Proof. split; [lia|]. apply (script_up_to_1000 1000). lia. Defined.

Lemma main_prints_c_max_at_8 :
  snd (main (VInt 8) []) = Ok 1 /\
  exists n k,
    VInt 8 = VInt n /\ 0 < n /\ c_max_of b_val e_val n = Ok k /\
    fst (main (VInt 8) []) =
    [] ++ [("Max numbers of digits is " ++ format_int k)%string].
Proof.
  assert (H : snd (main (VInt 8) []) = Ok 1) by (vm_compute; reflexivity).
  split; [exact H|].
  apply (proj2 (main_prints_c_max (VInt 8) []) 1). exact H.
Defined.

Lemma script_asserts_sign_at_minus_5 :
  -5 <= 0 /\
  script (Number (-5)) = ([prompt], Some (Uncaught AssertionError)).
Proof.
  split; [lia|].
  apply (proj1 (proj2 (script_asserts_sign (Number (-5))))). lia.
Defined.

(** ** The turns of the loop *)

Lemma turn_0_or_1_table (c : Z) :
  1 <= c <= 382 ->
  fst (turn_of c) <= snd (turn_of c) <= fst (turn_of c) + 1.
Proof.
  intros Hc.
  assert (Hall : forallb turn_0_or_1 (range 1 383) = true)
    by (vm_compute; reflexivity).
  rewrite forallb_forall in Hall.
  specialize (Hall c ltac:(apply in_range; lia)).
  unfold turn_0_or_1 in Hall. destruct (turn_of c) as [kn kd].
  apply andb_true_iff in Hall. destruct Hall as [H1 H2].
  apply Z.leb_le in H1, H2. cbn [fst snd]. lia.
Qed.

Lemma fold_add_turn_bounds (n : Z) (ts : list (Z * Z)) :
  (forall t, In t ts ->
     0 <= Z.min (snd t) 1000 - Z.min (fst t) n <= 1) ->
  forall acc,
    acc <= fold_left (add_turn n) ts acc <= acc + Z.of_nat (List.length ts).
Proof.
  induction ts as [|t ts IH]; intros Hts acc.
  - cbn [fold_left List.length]. lia.
  - cbn [fold_left]. pose proof (Hts t (or_introl eq_refl)) as Ht.
    specialize (IH (fun t' H => Hts t' (or_intror H)) (add_turn n acc t)).
    assert (Ha : add_turn n acc t
                 = acc + (Z.min (snd t) 1000 - Z.min (fst t) n))
      by reflexivity.
    revert IH. generalize (add_turn n acc t) Ha. intros a -> IH.
    change (List.length (t :: ts)) with (S (List.length ts)). lia.
Qed.

Lemma range_length (lo hi : Z) :
  List.length (range lo hi) = Z.to_nat (hi - lo).
Proof. unfold range. rewrite length_map, length_seq. reflexivity. Qed.

(** X11: called with [n] from 1 to 1000, [main] adds 0 or 1 to its total at
    every turn of the loop, and so returns a count between 0 and
    [c_max]. *)
Theorem turns_add_0_or_1 (n k : Z) :
  1 <= n <= 1000 ->
  c_max_of b_val e_val n = Ok k ->
  (forall c acc, 1 <= c <= k ->
     loop_body b_val e_val n c acc = Ok acc \/
     loop_body b_val e_val n c acc = Ok (acc + 1)) /\
  exists r, count n = Ok r /\ 0 <= r <= k.
Proof.
  intros Hn Ek. rewrite c_max_at_eq in Ek.
  destruct (main_by_table n Hn) as [k' [Ek' [Hk [_ [Er [_ Hcl]]]]]].
  rewrite Ek in Ek'. injection Ek' as <-.
  assert (Hturn : forall c, 1 <= c <= k ->
            0 <= Z.min (snd (turn_of c)) 1000 - Z.min (fst (turn_of c)) n <= 1).
  { intros c Hc. destruct (Hcl c Hc) as [H1 H2].
    pose proof (turn_0_or_1_table c ltac:(lia)).
    rewrite !Z.min_l by lia. lia. }
  split.
  - intros c acc Hc. rewrite loop_body_at_eq.
    destruct (turn_of_table c ltac:(lia)) as [En [Ed _]].
    unfold loop_body_at, loop_body_with. fold ceil_n_at ceil_d_at.
    rewrite En, bind_Ok, Ed, bind_Ok.
    pose proof (Hturn c Hc) as Ht.
    assert (Hd : Z.min (snd (turn_of c)) 1000 - Z.min (fst (turn_of c)) n = 0
                 \/ Z.min (snd (turn_of c)) 1000
                    - Z.min (fst (turn_of c)) n = 1) by lia.
    destruct Hd as [-> | ->]; [left | right]; f_equal; lia.
  - exists (count_tab n k). split; [exact Er|].
    unfold count_tab. rewrite firstn_turn_table by exact Hk.
    pose proof (fold_add_turn_bounds n (map turn_of (range 1 (k + 1)))) as Hb.
    rewrite length_map, range_length in Hb.
    specialize (Hb ltac:(intros t Ht; apply in_map_iff in Ht;
                         destruct Ht as [c [<- Hc]]; apply in_range in Hc;
                         apply Hturn; lia) 0).
    lia.
Qed.

Lemma turns_add_0_or_1_at_8 :
  1 <= 8 <= 1000 /\ c_max_of b_val e_val 8 = Ok 3 /\
  exists r, count 8 = Ok r /\ 0 <= r <= 3.
Proof.
  assert (E : c_max_of b_val e_val 8 = Ok 3)
    by (rewrite c_max_at_eq; vm_compute; reflexivity).
  split; [lia|]. split; [exact E|].
  apply (proj2 (turns_add_0_or_1 8 3 ltac:(lia) E)).
Defined.
